(** * JT51-Synth top level: USB MIDI descriptors and stream wiring

    A model of [gateware/jt51synth.py]: the descriptor set built by
    [JT51Synth.create_descriptors] and the statements that
    [JT51Synth.elaborate] adds to the [usb] and [comb] domains.

    Integers are [Z]; a value stored into a [w]-bit signal is cut to its low
    [w] bits.  The descriptor emitters are records whose fields are filled
    by one setter per assignment of the source, in the source's order. *)

From Stdlib Require Import ZArith List String Bool QArith Lia.
Import ListNotations.

Local Open Scope string_scope.
Local Open Scope Z_scope.
Local Open Scope list_scope.

(** ** The parts of [usb_protocol.types] the top level uses *)

Module USBProtocol.

(** [USBRequestType]: the two-bit type field of a setup packet. *)
Inductive USBRequestType := STANDARD | CLASS | VENDOR | RESERVED.

Definition USBRequestType_value (t : USBRequestType) : Z :=
  match t with
  | STANDARD => 0
  | CLASS    => 1
  | VENDOR   => 2
  | RESERVED => 3
  end.

(** [USBDirection]: an integer enumeration, OUT = 0 and IN = 1. *)
Inductive USBDirection := OUT | IN.

Definition USBDirection_value (d : USBDirection) : Z :=
  match d with OUT => 0 | IN => 1 end.

(** [USBDirection(value)]: the member with that value, if any. *)
Definition USBDirection_of (v : Z) : option USBDirection :=
  if v =? 0 then Some OUT else if v =? 1 then Some IN else None.

Definition is_in (d : USBDirection) : bool :=
  match d with IN => true | OUT => false end.

(** [to_endpoint_address]: endpoint number to endpoint address; the
    direction bit is bit 7. *)
Definition to_endpoint_address (self : USBDirection) (endpoint_number : Z) : Z :=
  if is_in self then Z.lor endpoint_number (Z.shiftl 1 7) else endpoint_number.

(** [from_endpoint_address]: a class method, the direction held in an
    endpoint address.  Called through a member, the member is ignored. *)
Definition from_endpoint_address (_self : USBDirection) (address : Z)
  : option USBDirection :=
  USBDirection_of (Z.shiftr address 7).

(** The direction bit and the endpoint number of an endpoint address. *)
Definition address_direction_bit (address : Z) : bool := Z.testbit address 7.
Definition address_number (address : Z) : Z := Z.land address 127.

Inductive MidiStreamingJackTypes := EMBEDDED | EXTERNAL.

End USBProtocol.
Export USBProtocol.

(** ** Descriptor emitters *)

Module Emitters.

Record DeviceDescriptorEmitter := mkDevice {
  bcdUSB             : option Q;
  bDeviceClass       : option Z;
  bDeviceSubclass    : option Z;
  bDeviceProtocol    : option Z;
  idVendor           : option Z;
  idProduct          : option Z;
  iManufacturer      : option string;
  iProduct           : option string;
  iSerialNumber      : option string;
  bcdDevice          : option Q;
  bNumConfigurations : option Z
}.

Definition DeviceDescriptor : DeviceDescriptorEmitter :=
  mkDevice None None None None None None None None None None None.

Definition set_bcdUSB v d :=
  mkDevice (Some v) (bDeviceClass d) (bDeviceSubclass d) (bDeviceProtocol d)
    (idVendor d) (idProduct d) (iManufacturer d) (iProduct d)
    (iSerialNumber d) (bcdDevice d) (bNumConfigurations d).
Definition set_bDeviceClass v d :=
  mkDevice (bcdUSB d) (Some v) (bDeviceSubclass d) (bDeviceProtocol d)
    (idVendor d) (idProduct d) (iManufacturer d) (iProduct d)
    (iSerialNumber d) (bcdDevice d) (bNumConfigurations d).
Definition set_bDeviceSubclass v d :=
  mkDevice (bcdUSB d) (bDeviceClass d) (Some v) (bDeviceProtocol d)
    (idVendor d) (idProduct d) (iManufacturer d) (iProduct d)
    (iSerialNumber d) (bcdDevice d) (bNumConfigurations d).
Definition set_bDeviceProtocol v d :=
  mkDevice (bcdUSB d) (bDeviceClass d) (bDeviceSubclass d) (Some v)
    (idVendor d) (idProduct d) (iManufacturer d) (iProduct d)
    (iSerialNumber d) (bcdDevice d) (bNumConfigurations d).
Definition set_idVendor v d :=
  mkDevice (bcdUSB d) (bDeviceClass d) (bDeviceSubclass d) (bDeviceProtocol d)
    (Some v) (idProduct d) (iManufacturer d) (iProduct d)
    (iSerialNumber d) (bcdDevice d) (bNumConfigurations d).
Definition set_idProduct v d :=
  mkDevice (bcdUSB d) (bDeviceClass d) (bDeviceSubclass d) (bDeviceProtocol d)
    (idVendor d) (Some v) (iManufacturer d) (iProduct d)
    (iSerialNumber d) (bcdDevice d) (bNumConfigurations d).
Definition set_iManufacturer v d :=
  mkDevice (bcdUSB d) (bDeviceClass d) (bDeviceSubclass d) (bDeviceProtocol d)
    (idVendor d) (idProduct d) (Some v) (iProduct d)
    (iSerialNumber d) (bcdDevice d) (bNumConfigurations d).
Definition set_iProduct v d :=
  mkDevice (bcdUSB d) (bDeviceClass d) (bDeviceSubclass d) (bDeviceProtocol d)
    (idVendor d) (idProduct d) (iManufacturer d) (Some v)
    (iSerialNumber d) (bcdDevice d) (bNumConfigurations d).
Definition set_iSerialNumber v d :=
  mkDevice (bcdUSB d) (bDeviceClass d) (bDeviceSubclass d) (bDeviceProtocol d)
    (idVendor d) (idProduct d) (iManufacturer d) (iProduct d)
    (Some v) (bcdDevice d) (bNumConfigurations d).
Definition set_bcdDevice v d :=
  mkDevice (bcdUSB d) (bDeviceClass d) (bDeviceSubclass d) (bDeviceProtocol d)
    (idVendor d) (idProduct d) (iManufacturer d) (iProduct d)
    (iSerialNumber d) (Some v) (bNumConfigurations d).
Definition set_bNumConfigurations v d :=
  mkDevice (bcdUSB d) (bDeviceClass d) (bDeviceSubclass d) (bDeviceProtocol d)
    (idVendor d) (idProduct d) (iManufacturer d) (iProduct d)
    (iSerialNumber d) (bcdDevice d) (Some v).

(** The standard MIDI-streaming interface descriptor. *)
Record StandardMidiStreamingInterfaceDescriptorEmitter := mkInterface {
  bInterfaceNumber : option Z;
  bNumEndpoints    : option Z
}.

Definition StandardMidiStreamingInterface :=
  mkInterface None None.
Definition set_bInterfaceNumber v i := mkInterface (Some v) (bNumEndpoints i).
Definition set_bNumEndpoints v i := mkInterface (bInterfaceNumber i) (Some v).

(** MIDI jacks.  An IN jack and an OUT jack differ by their emitter; only
    an OUT jack has [add_source]. *)
Inductive JackDirection := JackIN | JackOUT.

Record MidiJackDescriptorEmitter := mkJack {
  jackDirection : JackDirection;
  bJackID       : option Z;
  bJackType     : option MidiStreamingJackTypes;
  baSourceID    : list Z
}.

Definition MidiInJackDescriptorEmitter  := mkJack JackIN None None [].
Definition MidiOutJackDescriptorEmitter := mkJack JackOUT None None [].
Definition set_bJackID v j :=
  mkJack (jackDirection j) (Some v) (bJackType j) (baSourceID j).
Definition set_bJackType v j :=
  mkJack (jackDirection j) (bJackID j) (Some v) (baSourceID j).
Definition add_source (sourceId : Z) j :=
  mkJack (jackDirection j) (bJackID j) (bJackType j) (baSourceID j ++ [sourceId]).

(** Standard endpoint descriptors; the source uses two emitters, the bulk
    one for OUT and the plain one for IN. *)
Inductive StandardEndpointEmitter :=
  StandardMidiStreamingBulkData | StandardMidiStreamingData.

Record StandardEndpointDescriptorEmitter := mkStdEp {
  stdEmitter       : StandardEndpointEmitter;
  bEndpointAddress : option Z;
  wMaxPacketSize   : option Z
}.

Definition StandardMidiStreamingBulkDataEndpointDescriptorEmitter :=
  mkStdEp StandardMidiStreamingBulkData None None.
Definition StandardMidiStreamingDataEndpointDescriptorEmitter :=
  mkStdEp StandardMidiStreamingData None None.
Definition set_bEndpointAddress v e :=
  mkStdEp (stdEmitter e) (Some v) (wMaxPacketSize e).
Definition set_wMaxPacketSize v e :=
  mkStdEp (stdEmitter e) (bEndpointAddress e) (Some v).

Record ClassSpecificMidiStreamingBulkDataEndpointDescriptorEmitter := mkCsEp {
  baAssocJackID : list Z
}.

Definition ClassSpecificMidiStreamingBulkDataEndpoint := mkCsEp [].
Definition add_associated_jack (jackId : Z) e := mkCsEp (baAssocJackID e ++ [jackId]).

(** What a class-specific streaming interface holds, in the order added. *)
Inductive StreamingSubordinate :=
| SubJack       (j : MidiJackDescriptorEmitter)
| SubStandardEp (e : StandardEndpointDescriptorEmitter)
| SubClassEp    (e : ClassSpecificMidiStreamingBulkDataEndpointDescriptorEmitter).

Record ClassSpecificMidiStreamingInterfaceDescriptorEmitter := mkStreaming {
  streamingSubordinates : list StreamingSubordinate
}.

Definition ClassSpecificMidiStreamingInterface := mkStreaming [].
Definition streaming_add_subordinate_descriptor (sub : StreamingSubordinate) s :=
  mkStreaming (streamingSubordinates s ++ [sub]).

Inductive ConfigurationSubordinate :=
| SubInterface (i : StandardMidiStreamingInterfaceDescriptorEmitter)
| SubStreaming (s : ClassSpecificMidiStreamingInterfaceDescriptorEmitter).

Record ConfigurationDescriptorEmitter := mkConfig {
  configSubordinates : list ConfigurationSubordinate
}.

Definition ConfigurationDescriptor := mkConfig [].
Definition config_add_subordinate_descriptor (sub : ConfigurationSubordinate) c :=
  mkConfig (configSubordinates c ++ [sub]).

(** The collection: leaving a [with] block adds the descriptor built in
    it. *)
Record DeviceDescriptorCollection := mkCollection {
  deviceDescriptors        : list DeviceDescriptorEmitter;
  configurationDescriptors : list ConfigurationDescriptorEmitter
}.

Definition DeviceDescriptorCollection_new := mkCollection [] [].
Definition add_device d c :=
  mkCollection (deviceDescriptors c ++ [d]) (configurationDescriptors c).
Definition add_configuration cfg c :=
  mkCollection (deviceDescriptors c) (configurationDescriptors c ++ [cfg]).

End Emitters.
Export Emitters.

(** ** [JT51Synth.create_descriptors] *)

Module Descriptors.

(** A call that raises makes the whole construction fail. *)
Definition bind {A B} (x : option A) (k : A -> option B) : option B :=
  match x with Some a => k a | None => None end.

Notation "x <- e ;; k" := (bind e (fun x => k))
  (at level 61, e at next level, right associativity).

Definition MAX_PACKET_SIZE : Z := 512.

Definition create_descriptors (with_midi_in : bool)
  : option DeviceDescriptorCollection :=
  let descriptors := DeviceDescriptorCollection_new in

  let d := DeviceDescriptor in
  let d := set_bcdUSB 2.00%Q d in
  let d := set_bDeviceClass 0xEF d in
  let d := set_bDeviceSubclass 0x02 d in
  let d := set_bDeviceProtocol 0x01 d in
  let d := set_idVendor 0x16d0 d in
  let d := set_idProduct 0x0f3b d in
  let d := set_iManufacturer "N/A"%string d in
  let d := set_iProduct "JT51-Synth"%string d in
  let d := set_iSerialNumber "0001"%string d in
  let d := set_bcdDevice 0.01%Q d in
  let d := set_bNumConfigurations 1 d in
  let descriptors := add_device d descriptors in

  let configDescr := ConfigurationDescriptor in
  let interface := StandardMidiStreamingInterface in
  let interface := set_bInterfaceNumber 0 interface in
  let interface := set_bNumEndpoints (if with_midi_in then 2 else 1) interface in
  let configDescr :=
    config_add_subordinate_descriptor (SubInterface interface) configDescr in

  let streamingInterface := ClassSpecificMidiStreamingInterface in

  let streamingInterface :=
    if with_midi_in then
      let outToHostJack := MidiOutJackDescriptorEmitter in
      let outToHostJack := set_bJackID 1 outToHostJack in
      let outToHostJack := set_bJackType EMBEDDED outToHostJack in
      let outToHostJack := add_source 2 outToHostJack in
      let streamingInterface :=
        streaming_add_subordinate_descriptor (SubJack outToHostJack)
          streamingInterface in

      let inToDeviceJack := MidiInJackDescriptorEmitter in
      let inToDeviceJack := set_bJackID 2 inToDeviceJack in
      let inToDeviceJack := set_bJackType EXTERNAL inToDeviceJack in
      streaming_add_subordinate_descriptor (SubJack inToDeviceJack)
        streamingInterface
    else streamingInterface in

  let inFromHostJack := MidiInJackDescriptorEmitter in
  let inFromHostJack := set_bJackID 3 inFromHostJack in
  let inFromHostJack := set_bJackType EMBEDDED inFromHostJack in
  let streamingInterface :=
    streaming_add_subordinate_descriptor (SubJack inFromHostJack)
      streamingInterface in

  let outFromDeviceJack := MidiOutJackDescriptorEmitter in
  let outFromDeviceJack := set_bJackID 4 outFromDeviceJack in
  let outFromDeviceJack := set_bJackType EXTERNAL outFromDeviceJack in
  let outFromDeviceJack := add_source 3 outFromDeviceJack in
  let streamingInterface :=
    streaming_add_subordinate_descriptor (SubJack outFromDeviceJack)
      streamingInterface in

  let outEndpoint := StandardMidiStreamingBulkDataEndpointDescriptorEmitter in
  let outEndpoint :=
    set_bEndpointAddress (to_endpoint_address OUT 1) outEndpoint in
  let outEndpoint := set_wMaxPacketSize MAX_PACKET_SIZE outEndpoint in
  let streamingInterface :=
    streaming_add_subordinate_descriptor (SubStandardEp outEndpoint)
      streamingInterface in

  let outMidiEndpoint := ClassSpecificMidiStreamingBulkDataEndpoint in
  let outMidiEndpoint := add_associated_jack 3 outMidiEndpoint in
  let streamingInterface :=
    streaming_add_subordinate_descriptor (SubClassEp outMidiEndpoint)
      streamingInterface in

  streamingInterface <-
    (if with_midi_in then
       let inEndpoint := StandardMidiStreamingDataEndpointDescriptorEmitter in
       direction <- from_endpoint_address IN 1 ;;
       let inEndpoint :=
         set_bEndpointAddress (USBDirection_value direction) inEndpoint in
       let inEndpoint := set_wMaxPacketSize MAX_PACKET_SIZE inEndpoint in
       let streamingInterface :=
         streaming_add_subordinate_descriptor (SubStandardEp inEndpoint)
           streamingInterface in

       let inMidiEndpoint := ClassSpecificMidiStreamingBulkDataEndpoint in
       let inMidiEndpoint := add_associated_jack 1 inMidiEndpoint in
       Some (streaming_add_subordinate_descriptor (SubClassEp inMidiEndpoint)
               streamingInterface)
     else Some streamingInterface) ;;

  let configDescr :=
    config_add_subordinate_descriptor (SubStreaming streamingInterface)
      configDescr in
  Some (add_configuration configDescr descriptors).

(** *** Reading a descriptor set back *)

Definition interfaces_of (c : DeviceDescriptorCollection)
  : list StandardMidiStreamingInterfaceDescriptorEmitter :=
  flat_map (fun cfg =>
    flat_map (fun sub => match sub with SubInterface i => [i] | _ => [] end)
      (configSubordinates cfg))
    (configurationDescriptors c).

(** The subordinates of the class-specific streaming interface, in order. *)
Definition streaming_of (c : DeviceDescriptorCollection)
  : list StreamingSubordinate :=
  flat_map (fun cfg =>
    flat_map (fun sub =>
      match sub with SubStreaming s => streamingSubordinates s | _ => [] end)
      (configSubordinates cfg))
    (configurationDescriptors c).

Definition jacks_in (subs : list StreamingSubordinate)
  : list MidiJackDescriptorEmitter :=
  flat_map (fun sub => match sub with SubJack j => [j] | _ => [] end) subs.

Definition standard_endpoints_in (subs : list StreamingSubordinate)
  : list StandardEndpointDescriptorEmitter :=
  flat_map (fun sub => match sub with SubStandardEp e => [e] | _ => [] end) subs.

Definition jacks_of c := jacks_in (streaming_of c).
Definition standard_endpoints_of c := standard_endpoints_in (streaming_of c).

Definition is_jack (sub : StreamingSubordinate) : bool :=
  match sub with SubJack _ => true | _ => false end.

Definition jack_ids (js : list MidiJackDescriptorEmitter) : list (option Z) :=
  map bJackID js.

(** Is [id] the identifier of one of the jacks [js]? *)
Definition jack_exists (js : list MidiJackDescriptorEmitter) (id : Z) : bool :=
  existsb (fun j => match bJackID j with Some i => i =? id | None => false end) js.

(** Every source of every jack names a jack of the same set. *)
Definition sources_resolved (js : list MidiJackDescriptorEmitter) : bool :=
  forallb (fun j => forallb (jack_exists js) (baSourceID j)) js.

(** The outline of a subordinate: what kind of descriptor it is and what
    it refers to.  An endpoint's address is left out. *)
Inductive SubordinateShape :=
| Jack (direction : JackDirection) (type : option MidiStreamingJackTypes)
       (id : option Z)
| StandardEndpoint (emitter : StandardEndpointEmitter)
| ClassSpecificEndpoint (jacks : list Z).

Definition shape (sub : StreamingSubordinate) : SubordinateShape :=
  match sub with
  | SubJack j       => Jack (jackDirection j) (bJackType j) (bJackID j)
  | SubStandardEp e => StandardEndpoint (stdEmitter e)
  | SubClassEp e    => ClassSpecificEndpoint (baAssocJackID e)
  end.

(** The jack order as the specification words it: 3, 4 and then, with the
    feature enabled, 1, 2. *)
Definition spec_jack_order (with_midi_in : bool) : list (option Z) :=
  [Some 3; Some 4] ++ (if with_midi_in then [Some 1; Some 2] else []).

Definition class_endpoints_in (subs : list StreamingSubordinate)
  : list ClassSpecificMidiStreamingBulkDataEndpointDescriptorEmitter :=
  flat_map (fun sub => match sub with SubClassEp e => [e] | _ => [] end) subs.

Definition class_endpoints_of c := class_endpoints_in (streaming_of c).

(** Is [id] the identifier of an embedded jack of [js]? *)
Definition embedded_jack_exists (js : list MidiJackDescriptorEmitter) (id : Z)
  : bool :=
  existsb (fun j =>
    match bJackID j, bJackType j with
    | Some i, Some EMBEDDED => i =? id
    | _, _ => false
    end) js.

End Descriptors.
Export Descriptors.

(** ** Signals, statements and clock domains

    The top level only adds assignment statements to two domains.  A
    statement of the [comb] domain holds at every instant; a statement of
    the [usb] domain takes effect at the clock edge, its right-hand side
    read before the edge.  Every signal resets to 0.  When several
    statements of one domain assign one signal, the last in program order
    takes effect. *)

Module Setup.
(** The decoded setup packet handed to a request handler. *)
Record SetupPacket := mk {
  is_in_request : Z;   (* 1 bit *)
  type          : Z;   (* 2 bits *)
  recipient     : Z;   (* 5 bits *)
  request       : Z;   (* 8 bits *)
  value         : Z;   (* 16 bits *)
  index         : Z;   (* 16 bits *)
  length        : Z    (* 16 bits *)
}.
End Setup.

Module Hdl.

Inductive StreamField := valid | ready | first | last | payload.

Inductive Signal :=
| ep1_out_stream (f : StreamField)
| synthmodule_midi_stream (f : StreamField)
| usb_connect
| usb_full_speed_only
| adat_tx
| synthmodule_adat_out.

Definition StreamInterface := StreamField -> Signal.

Definition field_width (f : StreamField) : Z :=
  match f with payload => 8 | _ => 1 end.

(** Modelled from the spec: [SynthModule] is not among the sources; its
    [midi_stream] is the byte stream of the spec's data model (data byte,
    valid, ready, first and last markers), so its fields have the widths
    of the endpoint's stream. *)
Definition midi_stream_field_width (f : StreamField) : Z := field_width f.

Definition width (s : Signal) : Z :=
  match s with
  | ep1_out_stream f => field_width f
  | synthmodule_midi_stream f => midi_stream_field_width f
  | _ => 1
  end.

Definition StreamField_eqb (a b : StreamField) : bool :=
  match a, b with
  | valid, valid | ready, ready | first, first | last, last
  | payload, payload => true
  | _, _ => false
  end.

Definition Signal_eqb (a b : Signal) : bool :=
  match a, b with
  | ep1_out_stream f, ep1_out_stream g => StreamField_eqb f g
  | synthmodule_midi_stream f, synthmodule_midi_stream g => StreamField_eqb f g
  | usb_connect, usb_connect
  | usb_full_speed_only, usb_full_speed_only
  | adat_tx, adat_tx
  | synthmodule_adat_out, synthmodule_adat_out => true
  | _, _ => false
  end.

Inductive Value := Const (z : Z) | Sig (s : Signal).

(** [lhs.eq(rhs)] *)
Record Statement := Assign { lhs : Signal; rhs : Value }.

(** [self.stream_eq(interface)]: [self] takes valid, first, last and
    payload from [interface], and [interface] takes ready from [self]. *)
Definition stream_eq (self interface : StreamInterface) : list Statement :=
  [ Assign (self valid)      (Sig (interface valid));
    Assign (self first)      (Sig (interface first));
    Assign (self last)       (Sig (interface last));
    Assign (self payload)    (Sig (interface payload));
    Assign (interface ready) (Sig (self ready)) ].

(** *** Values of the signals *)

Definition Env := Signal -> Z.

(** The value a [w]-bit signal holds after it is assigned [v]. *)
Definition trunc (w v : Z) : Z := Z.land v (Z.ones w).

Definition eval (e : Env) (v : Value) : Z :=
  match v with Const z => z | Sig s => e s end.

Definition update (e : Env) (s : Signal) (z : Z) : Env :=
  fun s' => if Signal_eqb s' s then z else e s'.

(** One statement: the right-hand side is read in [cur], the result is
    written over [nxt]. *)
Definition exec (cur nxt : Env) (st : Statement) : Env :=
  update nxt (lhs st) (trunc (width (lhs st)) (eval cur (rhs st))).

Definition drives (stmts : list Statement) (s : Signal) : bool :=
  existsb (fun st => Signal_eqb (lhs st) s) stmts.

Definition reset : Env := fun _ => 0.

(** *** Request handlers and endpoints *)

Definition eq_op (a b : Z) : Z := Z.b2z (a =? b).

Inductive RequestHandler :=
| StandardRequestHandler (descriptors : DeviceDescriptorCollection)
| StallOnlyRequestHandler (stall_condition : Setup.SetupPacket -> Z).

Inductive Endpoint :=
| USBControlEndpoint (handlers : list RequestHandler)
| USBStreamOutEndpoint (endpoint_number max_packet_size : Z)
| USBStreamInEndpoint (endpoint_number max_packet_size : Z).

Record USBDevice := mkUSB { endpoints : list Endpoint }.

Definition add_endpoint (ep : Endpoint) (usb : USBDevice) : USBDevice :=
  mkUSB (endpoints usb ++ [ep]).

(** [usb.add_standard_control_endpoint(descriptors)]: a control endpoint
    with the standard request handler for [descriptors] is added to the
    device. *)
Definition add_standard_control_endpoint
    (descriptors : DeviceDescriptorCollection) (usb : USBDevice) : USBDevice :=
  add_endpoint (USBControlEndpoint [StandardRequestHandler descriptors]) usb.

(** [control_ep.add_request_handler(handler)]: the control endpoint is the
    object already held by the device, so the handler shows there, after
    the handlers it has. *)
Definition add_request_handler (handler : RequestHandler) (usb : USBDevice)
  : USBDevice :=
  mkUSB (map (fun ep =>
               match ep with
               | USBControlEndpoint handlers =>
                   USBControlEndpoint (handlers ++ [handler])
               | _ => ep
               end) (endpoints usb)).

Definition is_stream_endpoint (ep : Endpoint) : bool :=
  match ep with
  | USBStreamOutEndpoint _ _ | USBStreamInEndpoint _ _ => true
  | USBControlEndpoint _ => false
  end.

Definition stream_endpoints (usb : USBDevice) : list Endpoint :=
  filter is_stream_endpoint (endpoints usb).

Record Module := mkModule {
  submodules : list string;
  usb        : USBDevice;
  d_usb      : list Statement;
  d_comb     : list Statement
}.

Definition add_submodule (name : string) (m : Module) : Module :=
  mkModule (submodules m ++ [name]) (usb m) (d_usb m) (d_comb m).
Definition set_usb (u : USBDevice) (m : Module) : Module :=
  mkModule (submodules m) u (d_usb m) (d_comb m).
Definition add_usb (stmts : list Statement) (m : Module) : Module :=
  mkModule (submodules m) (usb m) (d_usb m ++ stmts) (d_comb m).
Definition add_comb (stmts : list Statement) (m : Module) : Module :=
  mkModule (submodules m) (usb m) (d_usb m) (d_comb m ++ stmts).

(** *** Simulation *)

(** The signals during one cycle: a signal driven from [usb] holds its
    register, a signal driven from [comb] is computed, every other signal
    is driven from outside and takes the cycle's input.  No [comb]
    statement of the top level reads a [comb]-driven signal, so one pass
    settles them. *)
Definition settle (m : Module) (regs inputs : Env) : Env :=
  let held : Env := fun s =>
    if drives (d_usb m) s then regs s
    else if drives (d_comb m) s then reset s
    else trunc (width s) (inputs s) in
  fold_left (exec held) (d_comb m) held.

(** The clock edge of the [usb] domain. *)
Definition tick (m : Module) (cur : Env) : Env :=
  fold_left (exec cur) (d_usb m) cur.

(** The signals at each cycle, one input per cycle, from registers
    [regs]. *)
Fixpoint simulate (m : Module) (regs : Env) (inputs : list Env) : list Env :=
  match inputs with
  | [] => []
  | i :: rest =>
      let e := settle m regs i in
      e :: simulate m (tick m e) rest
  end.

(** The bytes a stream presents with valid, in order. *)
Definition bytes_on (stream : StreamInterface) (trace : list Env) : list Z :=
  flat_map (fun e => if e (stream valid) =? 1 then [e (stream payload)] else [])
    trace.

(** One cycle of outside inputs: what the endpoint presents ([v], [p]) and
    whether the synth module is ready ([r]). *)
Definition cycle_inputs (v p r : Z) : Env :=
  fun s =>
    match s with
    | ep1_out_stream valid          => v
    | ep1_out_stream payload        => p
    | synthmodule_midi_stream ready => r
    | _                             => 0
    end.

Definition endpoint_max_packet_size (ep : Endpoint) : option Z :=
  match ep with
  | USBStreamOutEndpoint _ size | USBStreamInEndpoint _ size => Some size
  | USBControlEndpoint _ => None
  end.

(** What a stream presents in one cycle: valid, first, last, payload. *)
Definition beat (stream : StreamInterface) (e : Env) : Z * Z * Z * Z :=
  (e (stream valid), e (stream first), e (stream last), e (stream payload)).

(** The bytes of the cycles in which a stream has valid and ready both 1. *)
Definition transfers_on (stream : StreamInterface) (trace : list Env) : list Z :=
  flat_map (fun e =>
    if (e (stream valid) =? 1) && (e (stream ready) =? 1)
    then [e (stream payload)] else []) trace.

(** Inputs of a cycle in which the synth module is ready. *)
Definition synth_ready (i : Env) : Prop :=
  trunc 1 (i (synthmodule_midi_stream ready)) = 1.

(** Inputs of a cycle in which the endpoint presents nothing. *)
Definition endpoint_idle (i : Env) : Prop :=
  trunc 1 (i (ep1_out_stream valid)) = 0.


End Hdl.
Export Hdl.

(** ** [JT51Synth.elaborate] *)

Module TopLevel.

Definition stall_condition (setup : Setup.SetupPacket) : Z :=
  Z.lor (eq_op (Setup.type setup) (USBRequestType_value VENDOR))
        (eq_op (Setup.type setup) (USBRequestType_value RESERVED)).

Definition elaborate (with_midi_in : bool) : option Module :=
  let m := mkModule [] (mkUSB []) [] [] in

  let m := add_submodule "car" m in

  let m := add_submodule "usb" m in
  let usb := usb m in

  descriptors <- create_descriptors with_midi_in ;;
  let usb := add_standard_control_endpoint descriptors usb in

  let usb := add_request_handler (StallOnlyRequestHandler stall_condition) usb in

  let ep1_out := USBStreamOutEndpoint 1 MAX_PACKET_SIZE in
  let usb := add_endpoint ep1_out usb in

  let usb :=
    if with_midi_in then
      let ep1_in := USBStreamInEndpoint 1 MAX_PACKET_SIZE in
      add_endpoint ep1_in usb
    else usb in
  let m := set_usb usb m in

  let m := add_usb [Assign (ep1_out_stream ready) (Const 1)] m in

  let connect_button := 0 in
  let m := add_comb
    [ Assign usb_connect         (Const (Z.lnot connect_button));
      Assign usb_full_speed_only (Const 0) ] m in

  let m := add_submodule "synthmodule" m in
  let m := add_usb (stream_eq synthmodule_midi_stream ep1_out_stream) m in
  let m := add_comb [Assign adat_tx (Sig synthmodule_adat_out)] m in

  Some m.

End TopLevel.
Export TopLevel.

(** * Properties *)

(** ** Helper facts *)

Lemma trunc_idem (w v : Z) : trunc w (trunc w v) = trunc w v.
Proof.
  unfold trunc. now rewrite <- Z.land_assoc, Z.land_diag.
Qed.

Lemma last_cons {A} (a d : A) (l : list A) :
  l <> [] -> List.last (a :: l) d = List.last l d.
Proof. destruct l; [congruence | reflexivity]. Qed.

Lemma create_descriptors_jacks (b : bool) :
  exists c, create_descriptors b = Some c /\
    jacks_of c =
      (if b then [ mkJack JackOUT (Some 1) (Some EMBEDDED) [2];
                   mkJack JackIN  (Some 2) (Some EXTERNAL) [] ]
       else []) ++
      [ mkJack JackIN  (Some 3) (Some EMBEDDED) [];
        mkJack JackOUT (Some 4) (Some EXTERNAL) [3] ].
Proof.
  destruct b; eexists; (split; [reflexivity | reflexivity]).
Qed.

Lemma jack_exists_sound js id :
  jack_exists js id = true -> exists j, In j js /\ bJackID j = Some id.
Proof.
  unfold jack_exists. rewrite existsb_exists. intros [j [Hin Hid]].
  exists j. split; [assumption |].
  destruct (bJackID j) as [i |]; [| discriminate].
  apply Z.eqb_eq in Hid. now subst.
Qed.

(** The boolean check means what it says: no source is left dangling. *)
Lemma sources_resolved_sound js :
  sources_resolved js = true ->
  forall j s, In j js -> In s (baSourceID j) ->
    exists j', In j' js /\ bJackID j' = Some s.
Proof.
  unfold sources_resolved. rewrite forallb_forall. intros H j s Hj Hs.
  specialize (H j Hj). rewrite forallb_forall in H.
  apply jack_exists_sound. now apply H.
Qed.

(** The statements [elaborate] leaves in the two domains do not depend on
    the feature flag. *)
Lemma elaborate_domains (b : bool) :
  exists m, elaborate b = Some m /\
    d_usb m = Assign (ep1_out_stream ready) (Const 1)
                :: stream_eq synthmodule_midi_stream ep1_out_stream /\
    d_comb m = [ Assign usb_connect (Const (-1));
                 Assign usb_full_speed_only (Const 0);
                 Assign adat_tx (Sig synthmodule_adat_out) ].
Proof.
  destruct b; eexists; (split; [reflexivity | split; reflexivity]).
Qed.

Section Simulation.

Variable m : Module.
Hypothesis Husb :
  d_usb m = Assign (ep1_out_stream ready) (Const 1)
              :: stream_eq synthmodule_midi_stream ep1_out_stream.
Hypothesis Hcomb :
  d_comb m = [ Assign usb_connect (Const (-1));
               Assign usb_full_speed_only (Const 0);
               Assign adat_tx (Sig synthmodule_adat_out) ].

Ltac settled := unfold settle; rewrite Husb, Hcomb; reflexivity.
Ltac ticked := unfold tick; rewrite Husb; reflexivity.

Lemma settle_connect regs i : settle m regs i usb_connect = 1.
Proof. settled. Qed.

Lemma settle_full_speed_only regs i : settle m regs i usb_full_speed_only = 0.
Proof. settled. Qed.

Lemma settle_midi_valid regs i :
  settle m regs i (synthmodule_midi_stream valid)
  = regs (synthmodule_midi_stream valid).
Proof. settled. Qed.

Lemma settle_midi_payload regs i :
  settle m regs i (synthmodule_midi_stream payload)
  = regs (synthmodule_midi_stream payload).
Proof. settled. Qed.

Lemma settle_midi_ready regs i :
  settle m regs i (synthmodule_midi_stream ready)
  = trunc 1 (i (synthmodule_midi_stream ready)).
Proof. settled. Qed.

Lemma settle_ep_ready regs i :
  settle m regs i (ep1_out_stream ready) = regs (ep1_out_stream ready).
Proof. settled. Qed.

Lemma settle_ep_valid regs i :
  settle m regs i (ep1_out_stream valid) = trunc 1 (i (ep1_out_stream valid)).
Proof. settled. Qed.

Lemma settle_ep_payload regs i :
  settle m regs i (ep1_out_stream payload)
  = trunc 8 (i (ep1_out_stream payload)).
Proof. settled. Qed.

Lemma tick_midi_valid e :
  tick m e (synthmodule_midi_stream valid) = trunc 1 (e (ep1_out_stream valid)).
Proof. ticked. Qed.

Lemma tick_midi_payload e :
  tick m e (synthmodule_midi_stream payload)
  = trunc 8 (e (ep1_out_stream payload)).
Proof. ticked. Qed.

(** The later statement of the [usb] domain decides the register. *)
Lemma tick_ep_ready e :
  tick m e (ep1_out_stream ready) = trunc 1 (e (synthmodule_midi_stream ready)).
Proof. ticked. Qed.

(** What the stream registers hold is presented one cycle later. *)
Lemma bytes_delayed ins : forall regs i_last,
  bytes_on synthmodule_midi_stream (simulate m regs (ins ++ [i_last]))
  = (if regs (synthmodule_midi_stream valid) =? 1
     then [regs (synthmodule_midi_stream payload)] else [])
    ++ bytes_on ep1_out_stream (simulate m regs ins).
Proof.
  induction ins as [| i ins IH]; intros regs i_last.
  - cbn [app simulate bytes_on flat_map].
    now rewrite settle_midi_valid, settle_midi_payload.
  - cbn [app simulate bytes_on flat_map].
    fold (bytes_on synthmodule_midi_stream
            (simulate m (tick m (settle m regs i)) (ins ++ [i_last]))).
    fold (bytes_on ep1_out_stream (simulate m (tick m (settle m regs i)) ins)).
    rewrite IH, settle_midi_valid, settle_midi_payload.
    rewrite tick_midi_valid, tick_midi_payload.
    rewrite settle_ep_valid, settle_ep_payload, !trunc_idem.
    reflexivity.
Qed.

Lemma ready_delayed ins : forall regs i j,
  List.last (simulate m regs (ins ++ [i; j])) reset (ep1_out_stream ready)
  = trunc 1 (i (synthmodule_midi_stream ready)).
Proof.
  induction ins as [| k ins IH]; intros regs i j.
  - cbn [app simulate List.last].
    now rewrite settle_ep_ready, tick_ep_ready, settle_midi_ready, trunc_idem.
  - cbn [app simulate].
    rewrite last_cons by (destruct ins; discriminate).
    apply IH.
Qed.

Lemma comb_constants ins : forall regs,
  Forall (fun e => e usb_connect = 1 /\ e usb_full_speed_only = 0)
         (simulate m regs ins).
Proof.
  induction ins as [| i ins IH]; intros regs; cbn [simulate]; constructor.
  - split; [apply settle_connect | apply settle_full_speed_only].
  - apply IH.
Qed.

End Simulation.

(** ** The stream from the OUT endpoint to the synth module *)


(** ** The control-request gate *)

(** C2: the stall condition is 1 for a setup packet of type Vendor or
    Reserved and 0 for one of type Standard or Class, whatever the request
    code and the other fields are. *)
Theorem stall_condition_by_type (setup : Setup.SetupPacket) (t : USBRequestType) :
  Setup.type setup = USBRequestType_value t ->
  stall_condition setup
  = match t with
    | VENDOR | RESERVED => 1
    | STANDARD | CLASS  => 0
    end.
Proof.
  intros H. unfold stall_condition, eq_op. rewrite H.
  destruct t; reflexivity.
Qed.

(** A Vendor-type SET_FEATURE request (request code 3) is stalled. *)
Lemma stall_condition_by_type_witness :
  stall_condition (Setup.mk 0 2 0 3 1 0 0) = 1.
Proof.
  apply (stall_condition_by_type (Setup.mk 0 2 0 3 1 0 0) VENDOR).
  reflexivity.
Defined.

(** ** Endpoints *)

(** C3: for both values of [with_midi_in] the streaming interface descriptor
    declares as many endpoints as stream endpoints are added to the USB
    device: 1 with the feature disabled, 2 with it enabled. *)
Theorem declared_endpoints_match_instantiated (with_midi_in : bool) :
  exists c m,
    create_descriptors with_midi_in = Some c /\
    elaborate with_midi_in = Some m /\
    map bNumEndpoints (interfaces_of c)
    = [Some (Z.of_nat (List.length (stream_endpoints (usb m))))] /\
    Z.of_nat (List.length (stream_endpoints (usb m)))
    = (if with_midi_in then 2 else 1).
Proof.
  destruct with_midi_in; do 2 eexists;
    (split; [reflexivity | split; [reflexivity | split; reflexivity]]).
Qed.

(** C4: with the feature enabled, the address written into the standard IN
    endpoint descriptor is [from_endpoint_address] of 1, the direction OUT of
    value 0: endpoint number 0 with the direction bit clear, not 0x81
    ([to_endpoint_address] of 1 for IN).  The packet size is 512 as for the
    OUT endpoint, whose address is 1, and the IN endpoint added to the USB
    device has number 1. *)
Theorem in_endpoint_address_is_zero :
  exists c m,
    create_descriptors true = Some c /\
    elaborate true = Some m /\
    map bEndpointAddress (standard_endpoints_of c) = [Some 1; Some 0] /\
    map (fun e => option_map address_direction_bit (bEndpointAddress e))
        (standard_endpoints_of c) = [Some false; Some false] /\
    map (fun e => option_map address_number (bEndpointAddress e))
        (standard_endpoints_of c) = [Some 1; Some 0] /\
    map wMaxPacketSize (standard_endpoints_of c) = [Some 512; Some 512] /\
    stream_endpoints (usb m)
    = [USBStreamOutEndpoint 1 512; USBStreamInEndpoint 1 512] /\
    to_endpoint_address IN 1 = 0x81.
Proof.
  do 2 eexists. repeat split; reflexivity.
Qed.

(** ** Jacks *)

(** C5, as the specification words it, fails with the feature enabled: the
    jacks come in the order 1, 2, 3, 4 and not 3, 4, 1, 2. *)
Lemma jack_order_counterexample :
  exists c, create_descriptors true = Some c /\
    jack_ids (jacks_of c) = [Some 1; Some 2; Some 3; Some 4] /\
    jack_ids (jacks_of c) <> spec_jack_order true.
Proof.
  eexists. split; [reflexivity |]. split; [reflexivity | discriminate].
Qed.

(** C5, amended: the class-specific streaming interface holds, in this
    order, the embedded OUT jack 1 and the external IN jack 2 when the
    feature is enabled, then the embedded IN jack 3, then the external OUT
    jack 4; after the jacks the standard and class-specific endpoint
    descriptors for OUT (jack 3) and, when the feature is enabled, for IN
    (jack 1). *)
Theorem streaming_interface_order (with_midi_in : bool) :
  exists c, create_descriptors with_midi_in = Some c /\
    map shape (streaming_of c)
    = (if with_midi_in
       then [ Jack JackOUT (Some EMBEDDED) (Some 1);
              Jack JackIN  (Some EXTERNAL) (Some 2) ]
       else [])
      ++ [ Jack JackIN  (Some EMBEDDED) (Some 3);
           Jack JackOUT (Some EXTERNAL) (Some 4) ]
      ++ [ StandardEndpoint StandardMidiStreamingBulkData;
           ClassSpecificEndpoint [3] ]
      ++ (if with_midi_in
          then [ StandardEndpoint StandardMidiStreamingData;
                 ClassSpecificEndpoint [1] ]
          else []).
Proof.
  destruct with_midi_in; eexists; (split; reflexivity).
Qed.

(** C6: the jacks are exactly the embedded IN jack 3, the external OUT jack 4
    whose only source is 3 and, with the feature enabled only, the external
    IN jack 2 and the embedded OUT jack 1 whose only source is 2; with the
    feature disabled no jack has the identifier 1 or 2. *)
Theorem jack_graph (with_midi_in : bool) :
  exists c, create_descriptors with_midi_in = Some c /\
    (forall j, In j (jacks_of c) <->
       j = mkJack JackIN  (Some 3) (Some EMBEDDED) [] \/
       j = mkJack JackOUT (Some 4) (Some EXTERNAL) [3] \/
       (with_midi_in = true /\
        (j = mkJack JackIN  (Some 2) (Some EXTERNAL) [] \/
         j = mkJack JackOUT (Some 1) (Some EMBEDDED) [2]))) /\
    jack_exists (jacks_of c) 1 = with_midi_in /\
    jack_exists (jacks_of c) 2 = with_midi_in.
Proof.
  destruct (create_descriptors_jacks with_midi_in) as [c [Hc Hj]].
  exists c. split; [exact Hc |]. rewrite Hj.
  destruct with_midi_in; cbn [app In]; (split; [| split; reflexivity]);
    intros j; split; intros H; intuition (try discriminate; auto).
Qed.

(** C7: for both values of [with_midi_in] every identifier in a jack's
    source list is the identifier of a jack of the same descriptor set; the
    source lists are [2] (feature enabled) and [3]. *)
Theorem no_dangling_sources (with_midi_in : bool) :
  exists c, create_descriptors with_midi_in = Some c /\
    (forall j s, In j (jacks_of c) -> In s (baSourceID j) ->
       exists j', In j' (jacks_of c) /\ bJackID j' = Some s) /\
    flat_map baSourceID (jacks_of c)
    = (if with_midi_in then [2] else []) ++ [3].
Proof.
  destruct (create_descriptors_jacks with_midi_in) as [c [Hc Hj]].
  exists c. split; [exact Hc |]. rewrite Hj. split.
  - apply sources_resolved_sound. now destruct with_midi_in.
  - now destruct with_midi_in.
Qed.

(** ** The always-ready policy *)

(** C8: the endpoint's ready is a register of the [usb] domain.  In the
    first cycle after reset it is 0, and in every later cycle it is what the
    synth module's [midi_stream] ready was one cycle before: the statement
    from [stream_eq], added later to the same domain, decides it, not the
    constant 1. *)
Theorem ep1_out_ready_follows_midi_stream (with_midi_in : bool) :
  exists m, elaborate with_midi_in = Some m /\
    (forall i, map (fun e => e (ep1_out_stream ready)) (simulate m reset [i]) = [0]) /\
    (forall inputs i j,
       List.last (simulate m reset (inputs ++ [i; j])) reset (ep1_out_stream ready)
       = trunc 1 (i (synthmodule_midi_stream ready))).
Proof.
  destruct (elaborate_domains with_midi_in) as [m [Hm [Hu Hc]]].
  exists m. split; [exact Hm |]. split.
  - intros i. cbn [simulate map]. now rewrite (settle_ep_ready m Hu Hc).
  - intros inputs i j. apply (ready_delayed m Hu Hc).
Qed.

(** Ready over four cycles in which the synth module is ready, not ready,
    ready, ready. *)
Example ep1_out_ready_trace :
  option_map
    (fun m =>
       map (fun e => e (ep1_out_stream ready))
         (simulate m reset
            [ cycle_inputs 0 0 1; cycle_inputs 0 0 0;
              cycle_inputs 0 0 1; cycle_inputs 0 0 1 ]))
    (elaborate false)
  = Some [0; 1; 0; 1].
Proof. vm_compute. reflexivity. Qed.

(** ** The device descriptor *)

(** C9: the device descriptor has class 0xEF, subclass 0x02, protocol 0x01,
    vendor 0x16d0, product 0x0f3b, device revision 0.01, the strings N/A,
    JT51-Synth and 0001, and one configuration. *)
Theorem device_descriptor_values (with_midi_in : bool) :
  exists c d, create_descriptors with_midi_in = Some c /\
    deviceDescriptors c = [d] /\
    bDeviceClass d = Some 0xEF /\
    bDeviceSubclass d = Some 0x02 /\
    bDeviceProtocol d = Some 0x01 /\
    idVendor d = Some 0x16d0 /\
    idProduct d = Some 0x0f3b /\
    bcdDevice d = Some 0.01%Q /\
    iManufacturer d = Some "N/A"%string /\
    iProduct d = Some "JT51-Synth"%string /\
    iSerialNumber d = Some "0001"%string /\
    bNumConfigurations d = Some 1 /\
    List.length (configurationDescriptors c) = 1%nat.
Proof.
  destruct with_midi_in; do 2 eexists; repeat split; reflexivity.
Qed.

(** ** Connection and speed *)

(** C10: at every cycle, from any register state and for any inputs,
    [usb.connect] is 1 (the one-bit value of [~0]) and
    [usb.full_speed_only] is 0. *)
Theorem connect_and_speed_constant (with_midi_in : bool) :
  exists m, elaborate with_midi_in = Some m /\
    forall (regs : Env) (inputs : list Env),
      Forall (fun e => e usb_connect = 1 /\ e usb_full_speed_only = 0)
             (simulate m regs inputs).
Proof.
  destruct (elaborate_domains with_midi_in) as [m [Hm [Hu Hc]]].
  exists m. split; [exact Hm |].
  intros regs inputs. apply (comb_constants m Hu Hc).
Qed.

(** * Further properties of the top level *)

(** ** Helper facts *)

Lemma embedded_jack_exists_sound js id :
  embedded_jack_exists js id = true ->
  exists j, In j js /\ bJackID j = Some id /\ bJackType j = Some EMBEDDED.
Proof.
  unfold embedded_jack_exists. rewrite existsb_exists. intros [j [Hin H]].
  exists j. split; [assumption |].
  destruct (bJackID j) as [i |]; [| discriminate].
  destruct (bJackType j) as [[|] |]; try discriminate.
  apply Z.eqb_eq in H. now subst.
Qed.

Lemma create_descriptors_streaming (b : bool) :
  exists c, create_descriptors b = Some c /\
    class_endpoints_of c
    = mkCsEp [3] :: (if b then [mkCsEp [1]] else []) /\
    List.length (standard_endpoints_of c) = (if b then 2%nat else 1%nat) /\
    map bNumEndpoints (interfaces_of c) = [Some (if b then 2 else 1)] /\
    map wMaxPacketSize (standard_endpoints_of c)
    = repeat (Some 512) (if b then 2 else 1).
Proof.
  destruct b; eexists; repeat split; reflexivity.
Qed.

Lemma small_shiftr (n : Z) : 0 <= n < 128 -> Z.shiftr n 7 = 0.
Proof.
  intros H. rewrite Z.shiftr_div_pow2 by lia. now apply Z.div_small.
Qed.

Lemma small_land (n : Z) : 0 <= n < 128 -> Z.land n 127 = n.
Proof.
  intros H. change 127 with (Z.ones 7).
  rewrite Z.land_ones by lia. now apply Z.mod_small.
Qed.

(** Modules with the same statements simulate alike. *)
Lemma simulate_same_statements (m1 m2 : Module) :
  d_usb m1 = d_usb m2 -> d_comb m1 = d_comb m2 ->
  forall inputs regs, simulate m1 regs inputs = simulate m2 regs inputs.
Proof.
  intros Hu Hc. induction inputs as [| i inputs IH]; intros regs.
  - reflexivity.
  - cbn [simulate]. unfold settle, tick. rewrite Hu, Hc.
    f_equal. apply IH.
Qed.

Section Waveforms.

Variable m : Module.
Hypothesis Husb :
  d_usb m = Assign (ep1_out_stream ready) (Const 1)
              :: stream_eq synthmodule_midi_stream ep1_out_stream.
Hypothesis Hcomb :
  d_comb m = [ Assign usb_connect (Const (-1));
               Assign usb_full_speed_only (Const 0);
               Assign adat_tx (Sig synthmodule_adat_out) ].

Ltac by_settle := unfold settle; rewrite Husb, Hcomb; reflexivity.
Ltac by_tick := unfold tick; rewrite Husb; reflexivity.

Lemma settle_adat_tx regs i :
  settle m regs i adat_tx = trunc 1 (i synthmodule_adat_out).
Proof.
  unfold settle; rewrite Husb, Hcomb. cbn -[trunc]. apply trunc_idem.
Qed.

Lemma beat_settle_midi regs i :
  beat synthmodule_midi_stream (settle m regs i)
  = beat synthmodule_midi_stream regs.
Proof. by_settle. Qed.

Lemma beat_settle_ep regs i :
  beat ep1_out_stream (settle m regs i)
  = (trunc 1 (i (ep1_out_stream valid)), trunc 1 (i (ep1_out_stream first)),
     trunc 1 (i (ep1_out_stream last)), trunc 8 (i (ep1_out_stream payload))).
Proof. by_settle. Qed.

Lemma beat_tick e :
  beat synthmodule_midi_stream (tick m e)
  = (trunc 1 (e (ep1_out_stream valid)), trunc 1 (e (ep1_out_stream first)),
     trunc 1 (e (ep1_out_stream last)), trunc 8 (e (ep1_out_stream payload))).
Proof. by_tick. Qed.

(** The registers of [midi_stream] take over the endpoint's beat whole. *)
Lemma beat_registered regs i :
  beat synthmodule_midi_stream (tick m (settle m regs i))
  = beat ep1_out_stream (settle m regs i).
Proof.
  rewrite beat_tick, beat_settle_ep.
  unfold settle; rewrite Husb, Hcomb; cbn -[trunc Z.land].
  now rewrite !trunc_idem.
Qed.

Lemma beats_delayed inputs : forall regs i_last,
  map (beat synthmodule_midi_stream) (simulate m regs (inputs ++ [i_last]))
  = beat synthmodule_midi_stream regs
    :: map (beat ep1_out_stream) (simulate m regs inputs).
Proof.
  induction inputs as [| i inputs IH]; intros regs i_last.
  - cbn [app simulate map]. now rewrite beat_settle_midi.
  - cbn [app simulate map].
    now rewrite IH, beat_settle_midi, beat_registered.
Qed.

Lemma adat_follows inputs : forall regs,
  map (fun e => e adat_tx) (simulate m regs inputs)
  = map (fun i => trunc 1 (i synthmodule_adat_out)) inputs.
Proof.
  induction inputs as [| i inputs IH]; intros regs; cbn [simulate map].
  - reflexivity.
  - now rewrite settle_adat_tx, IH.
Qed.

(** While the synth module is ready, what [midi_stream] presents with valid
    is taken. *)
Lemma midi_transfers_when_ready inputs : forall regs,
  Forall synth_ready inputs ->
  transfers_on synthmodule_midi_stream (simulate m regs inputs)
  = bytes_on synthmodule_midi_stream (simulate m regs inputs).
Proof.
  induction inputs as [| i inputs IH]; intros regs H; [reflexivity |].
  inversion H as [| ? ? Hi Hrest]; subst.
  cbn [simulate transfers_on bytes_on flat_map].
  fold (transfers_on synthmodule_midi_stream
          (simulate m (tick m (settle m regs i)) inputs)).
  fold (bytes_on synthmodule_midi_stream
          (simulate m (tick m (settle m regs i)) inputs)).
  rewrite (settle_midi_ready m Husb Hcomb), Hi, IH by assumption.
  now rewrite andb_true_r.
Qed.

(** Once the endpoint's ready is 1 it stays 1 while the synth module is
    ready, and the endpoint's valid bytes are taken. *)
Lemma ep_transfers_when_ready inputs : forall regs,
  regs (ep1_out_stream ready) = 1 ->
  Forall synth_ready inputs ->
  transfers_on ep1_out_stream (simulate m regs inputs)
  = bytes_on ep1_out_stream (simulate m regs inputs).
Proof.
  induction inputs as [| i inputs IH]; intros regs Hr H; [reflexivity |].
  inversion H as [| ? ? Hi Hrest]; subst.
  cbn [simulate transfers_on bytes_on flat_map].
  fold (transfers_on ep1_out_stream
          (simulate m (tick m (settle m regs i)) inputs)).
  fold (bytes_on ep1_out_stream
          (simulate m (tick m (settle m regs i)) inputs)).
  rewrite (settle_ep_ready m Husb Hcomb), Hr, andb_true_r.
  rewrite IH; [reflexivity | | assumption].
  rewrite (tick_ep_ready m Husb), (settle_midi_ready m Husb Hcomb), trunc_idem.
  exact Hi.
Qed.

End Waveforms.

(** ** The stream registers *)

(** X1: [midi_stream] is the endpoint's stream exactly one [usb] cycle
    late, idle cycles included: valid, first, last and payload are all 0 in
    the first cycle after reset, and in every later cycle they are what the
    endpoint presented the cycle before. *)
Theorem midi_stream_one_cycle_late (with_midi_in : bool) :
  exists m, elaborate with_midi_in = Some m /\
    forall (inputs : list Env) (i_last : Env),
      map (beat synthmodule_midi_stream) (simulate m reset (inputs ++ [i_last]))
      = (0, 0, 0, 0) :: map (beat ep1_out_stream) (simulate m reset inputs).
Proof.
  destruct (elaborate_domains with_midi_in) as [m [Hm [Hu Hc]]].
  exists m. split; [exact Hm |].
  intros inputs i_last. now rewrite (beats_delayed m Hu Hc).
Qed.

(** X2: [adat.tx] is the synth module's [adat_out] of the same cycle, from
    any register state. *)
Theorem adat_tx_is_adat_out (with_midi_in : bool) :
  exists m, elaborate with_midi_in = Some m /\
    forall (regs : Env) (inputs : list Env),
      map (fun e => e adat_tx) (simulate m regs inputs)
      = map (fun i => trunc 1 (i synthmodule_adat_out)) inputs.
Proof.
  destruct (elaborate_domains with_midi_in) as [m [Hm [Hu Hc]]].
  exists m. split; [exact Hm |].
  intros regs inputs. apply (adat_follows m Hu Hc).
Qed.

(** X3: if the synth module is ready in every cycle and the endpoint
    presents nothing in the first cycle after reset, the bytes taken from the
    endpoint (valid and ready both 1) are the bytes taken by the synth
    module, in the same order. *)
Theorem handshake_preserved_when_synth_ready
    (with_midi_in : bool) (m : Module) (i0 : Env) (inputs : list Env)
    (i_last : Env) :
  elaborate with_midi_in = Some m ->
  Forall synth_ready (i0 :: inputs ++ [i_last]) ->
  endpoint_idle i0 ->
  transfers_on synthmodule_midi_stream
    (simulate m reset (i0 :: inputs ++ [i_last]))
  = transfers_on ep1_out_stream (simulate m reset (i0 :: inputs)).
Proof.
  intros Hm Hready Hidle.
  destruct (elaborate_domains with_midi_in) as [m' [Hm' [Hu Hc]]].
  rewrite Hm in Hm'. injection Hm' as <-.
  rewrite (midi_transfers_when_ready m Hu Hc) by assumption.
  change (i0 :: inputs ++ [i_last]) with ((i0 :: inputs) ++ [i_last]).
  rewrite (bytes_delayed m Hu Hc). cbn [reset Z.eqb app].
  cbn [simulate transfers_on bytes_on flat_map].
  fold (transfers_on ep1_out_stream
          (simulate m (tick m (settle m reset i0)) inputs)).
  fold (bytes_on ep1_out_stream
          (simulate m (tick m (settle m reset i0)) inputs)).
  rewrite (settle_ep_valid m Hu Hc). unfold endpoint_idle in Hidle.
  rewrite Hidle. cbn [Z.eqb andb app].
  symmetry. apply (ep_transfers_when_ready m Hu Hc).
  - rewrite (tick_ep_ready m Hu), (settle_midi_ready m Hu Hc), trunc_idem.
    now inversion Hready.
  - inversion Hready as [| ? ? _ Hrest]; subst.
    apply Forall_app in Hrest. tauto.
Qed.

(** The note-on event after one idle cycle, the synth module always ready. *)
Lemma handshake_preserved_when_synth_ready_witness :
  exists m, elaborate false = Some m /\
    transfers_on synthmodule_midi_stream
      (simulate m reset
         (cycle_inputs 0 0 1
            :: [ cycle_inputs 1 0x09 1; cycle_inputs 1 0x90 1;
                 cycle_inputs 1 0x40 1; cycle_inputs 1 0x7F 1 ]
            ++ [cycle_inputs 0 0 1]))
    = transfers_on ep1_out_stream
        (simulate m reset
           (cycle_inputs 0 0 1
              :: [ cycle_inputs 1 0x09 1; cycle_inputs 1 0x90 1;
                   cycle_inputs 1 0x40 1; cycle_inputs 1 0x7F 1 ])).
Proof.
  eexists. split; [reflexivity |].
  apply (handshake_preserved_when_synth_ready false).
  - reflexivity.
  - repeat constructor.
  - reflexivity.
Defined.

(** X4: the feature flag changes no statement of either domain: with and
    without the IN endpoint the design simulates alike, from any register
    state and for any inputs; the USB device only gains the IN endpoint. *)
Theorem midi_in_adds_no_wiring :
  exists m1 m0, elaborate true = Some m1 /\ elaborate false = Some m0 /\
    (forall (regs : Env) (inputs : list Env),
       simulate m1 regs inputs = simulate m0 regs inputs) /\
    stream_endpoints (usb m1)
    = stream_endpoints (usb m0) ++ [USBStreamInEndpoint 1 512].
Proof.
  do 2 eexists. split; [reflexivity |]. split; [reflexivity |]. split.
  - intros regs inputs. now apply simulate_same_statements.
  - reflexivity.
Qed.

(** ** The descriptor set *)

(** X5: for both values of the flag no two jacks share an identifier. *)
Theorem jack_ids_distinct (with_midi_in : bool) :
  exists c, create_descriptors with_midi_in = Some c /\
    NoDup (jack_ids (jacks_of c)).
Proof.
  destruct (create_descriptors_jacks with_midi_in) as [c [Hc Hj]].
  exists c. split; [exact Hc |]. rewrite Hj.
  destruct with_midi_in; cbn [app jack_ids map bJackID];
    repeat constructor; cbn [In]; intuition discriminate.
Qed.

(** X6: every jack that a class-specific endpoint descriptor is associated
    with is an embedded jack of the same descriptor set; the associations
    are jack 3 for OUT and, with the feature enabled, jack 1 for IN. *)
Theorem associated_jacks_are_embedded (with_midi_in : bool) :
  exists c, create_descriptors with_midi_in = Some c /\
    (forall e id, In e (class_endpoints_of c) -> In id (baAssocJackID e) ->
       exists j, In j (jacks_of c) /\ bJackID j = Some id /\
                 bJackType j = Some EMBEDDED) /\
    flat_map baAssocJackID (class_endpoints_of c)
    = 3 :: (if with_midi_in then [1] else []).
Proof.
  destruct (create_descriptors_jacks with_midi_in) as [c [Hc Hj]].
  destruct (create_descriptors_streaming with_midi_in) as [c' [Hc' [He _]]].
  rewrite Hc in Hc'. injection Hc' as <-.
  exists c. split; [exact Hc |]. rewrite Hj, He. split.
  - intros e id Hin Hid. apply embedded_jack_exists_sound.
    destruct with_midi_in; cbn [In] in Hin;
      repeat (destruct Hin as [<- | Hin]; [cbn [baAssocJackID In] in Hid |]);
      try contradiction;
      destruct Hid as [<- | []]; reflexivity.
  - now destruct with_midi_in.
Qed.

(** X7: the endpoint count declared by the streaming interface is the
    number of standard endpoint descriptors emitted, and each of those has
    its class-specific endpoint descriptor. *)
Theorem declared_endpoints_match_descriptors (with_midi_in : bool) :
  exists c, create_descriptors with_midi_in = Some c /\
    map bNumEndpoints (interfaces_of c)
    = [Some (Z.of_nat (List.length (standard_endpoints_of c)))] /\
    List.length (class_endpoints_of c) = List.length (standard_endpoints_of c).
Proof.
  destruct (create_descriptors_streaming with_midi_in)
    as [c [Hc [He [Hn [Hi _]]]]].
  exists c. split; [exact Hc |]. rewrite Hi, Hn, He.
  now destruct with_midi_in.
Qed.

(** X8: every standard endpoint descriptor declares, and every stream
    endpoint of the USB device is built with, the one packet size
    [MAX_PACKET_SIZE]. *)
Theorem packet_sizes_agree (with_midi_in : bool) :
  exists c m,
    create_descriptors with_midi_in = Some c /\
    elaborate with_midi_in = Some m /\
    Forall (fun e => wMaxPacketSize e = Some MAX_PACKET_SIZE)
           (standard_endpoints_of c) /\
    Forall (fun ep => endpoint_max_packet_size ep = Some MAX_PACKET_SIZE)
           (stream_endpoints (usb m)).
Proof.
  destruct with_midi_in; do 2 eexists;
    (split; [reflexivity | split; [reflexivity |]]);
    split; repeat constructor.
Qed.

(** X9: the USB device's first endpoint is the control endpoint; it has two
    request handlers, first the standard one, serving the descriptor set
    built for the same flag, then the stall-only handler with
    [stall_condition]; the stream endpoints follow it. *)
Theorem control_endpoint_serves_descriptors (with_midi_in : bool) :
  exists c m,
    create_descriptors with_midi_in = Some c /\
    elaborate with_midi_in = Some m /\
    endpoints (usb m)
    = USBControlEndpoint [ StandardRequestHandler c;
                           StallOnlyRequestHandler stall_condition ]
        :: stream_endpoints (usb m).
Proof.
  destruct with_midi_in; do 2 eexists;
    (split; [reflexivity | split; reflexivity]).
Qed.

(** ** The stall condition and endpoint addresses *)

(** X10: on a two-bit type field the stall condition is bit 1 of the
    type. *)
Theorem stall_condition_is_type_bit_1 (setup : Setup.SetupPacket) :
  0 <= Setup.type setup < 4 ->
  stall_condition setup = Z.b2z (Z.testbit (Setup.type setup) 1).
Proof.
  intros H. unfold stall_condition, eq_op.
  assert (Setup.type setup = 0 \/ Setup.type setup = 1 \/
          Setup.type setup = 2 \/ Setup.type setup = 3) as Ht by lia.
  destruct Ht as [-> | [-> | [-> | ->]]]; reflexivity.
Qed.

Lemma stall_condition_is_type_bit_1_witness :
  stall_condition (Setup.mk 1 3 0 6 0x0100 0 18) = 1.
Proof.
  apply (stall_condition_is_type_bit_1 (Setup.mk 1 3 0 6 0x0100 0 18)).
  cbn. lia.
Defined.

(** X11: for an endpoint number below 128, [to_endpoint_address] and
    [from_endpoint_address] are inverse: the address keeps the number in its
    low seven bits and the direction in bit 7.  Applied to the bare number,
    [from_endpoint_address] gives OUT whichever member it is called
    through. *)
Theorem endpoint_address_round_trip (d d' : USBDirection) (n : Z) :
  0 <= n < 128 ->
  from_endpoint_address d' (to_endpoint_address d n) = Some d /\
  address_number (to_endpoint_address d n) = n /\
  address_direction_bit (to_endpoint_address d n) = is_in d /\
  from_endpoint_address d' n = Some OUT.
Proof.
  intros H.
  unfold from_endpoint_address, to_endpoint_address, address_number,
    address_direction_bit.
  destruct d; cbn [is_in].
  - rewrite small_shiftr, small_land by assumption.
    rewrite Z.testbit_odd, small_shiftr by assumption.
    repeat split; reflexivity.
  - rewrite Z.shiftr_lor, Z.land_lor_distr_l, Z.lor_spec.
    rewrite small_shiftr, small_land by assumption.
    rewrite Z.lor_0_r, orb_true_r.
    repeat split; reflexivity.
Qed.

Lemma endpoint_address_round_trip_witness :
  from_endpoint_address OUT (to_endpoint_address IN 1) = Some IN /\
  address_number (to_endpoint_address IN 1) = 1 /\
  address_direction_bit (to_endpoint_address IN 1) = is_in IN /\
  from_endpoint_address OUT 1 = Some OUT.
Proof.
  apply (endpoint_address_round_trip IN OUT 1). lia.
Defined.

(** ** Drivers *)

(** X12: no signal is assigned from both domains, and the top level never
    drives what the endpoint or the synth module produce: the endpoint's
    valid, first, last and payload, the synth module's ready and its
    [adat_out]. *)
Theorem no_conflicting_drivers (with_midi_in : bool) :
  exists m, elaborate with_midi_in = Some m /\
    (forall s, drives (d_usb m) s && drives (d_comb m) s = false) /\
    (forall s,
       In s [ ep1_out_stream valid; ep1_out_stream first; ep1_out_stream last;
              ep1_out_stream payload; synthmodule_midi_stream ready;
              synthmodule_adat_out ] ->
       drives (d_usb m ++ d_comb m) s = false).
Proof.
  destruct (elaborate_domains with_midi_in) as [m [Hm [Hu Hc]]].
  exists m. split; [exact Hm |]. rewrite Hu, Hc. split.
  - intros [f | f | | | |]; try destruct f; reflexivity.
  - intros s Hs. cbn [In] in Hs.
    repeat (destruct Hs as [<- | Hs]; [reflexivity |]). contradiction.
Qed.

(** ** Register state *)

Section Registers.

Variable m : Module.
Hypothesis Husb :
  d_usb m = Assign (ep1_out_stream ready) (Const 1)
              :: stream_eq synthmodule_midi_stream ep1_out_stream.
Hypothesis Hcomb :
  d_comb m = [ Assign usb_connect (Const (-1));
               Assign usb_full_speed_only (Const 0);
               Assign adat_tx (Sig synthmodule_adat_out) ].

Lemma settle_pointwise r1 r2 i :
  (forall s, r1 s = r2 s) -> forall s, settle m r1 i s = settle m r2 i s.
Proof.
  intros H s. unfold settle; rewrite Husb, Hcomb.
  destruct s as [f | f | | | |]; try destruct f;
    cbn -[trunc]; rewrite ?H; reflexivity.
Qed.

Lemma tick_pointwise e1 e2 :
  (forall s, e1 s = e2 s) -> forall s, tick m e1 s = tick m e2 s.
Proof.
  intros H s. unfold tick; rewrite Husb.
  destruct s as [f | f | | | |]; try destruct f;
    cbn -[trunc]; rewrite ?H; reflexivity.
Qed.

(** One clock edge overwrites every register from the cycle's inputs. *)
Lemma tick_forgets r1 r2 i :
  forall s, tick m (settle m r1 i) s = tick m (settle m r2 i) s.
Proof.
  intros s. unfold tick, settle; rewrite Husb, Hcomb.
  destruct s as [f | f | | | |]; try destruct f; reflexivity.
Qed.

Lemma simulate_pointwise inputs : forall r1 r2,
  (forall s, r1 s = r2 s) ->
  forall s, map (fun e => e s) (simulate m r1 inputs)
            = map (fun e => e s) (simulate m r2 inputs).
Proof.
  induction inputs as [| i inputs IH]; intros r1 r2 H s; [reflexivity |].
  cbn [simulate map]. f_equal.
  - now apply settle_pointwise.
  - apply IH. apply tick_pointwise. now apply settle_pointwise.
Qed.

Lemma simulate_forgets inputs r1 r2 s :
  map (fun e => e s) (List.tl (simulate m r1 inputs))
  = map (fun e => e s) (List.tl (simulate m r2 inputs)).
Proof.
  destruct inputs as [| i inputs]; [reflexivity |].
  cbn [simulate List.tl]. apply simulate_pointwise, tick_forgets.
Qed.

End Registers.

(** X13: with the synth module ready in every cycle, the synth module takes
    what the endpoint presented with valid in the first cycle after reset,
    when the endpoint's ready was still 0, and after it exactly the bytes
    taken from the endpoint. *)
Theorem reset_cycle_byte_is_passed_on
    (with_midi_in : bool) (m : Module) (i0 : Env) (inputs : list Env)
    (i_last : Env) :
  elaborate with_midi_in = Some m ->
  Forall synth_ready (i0 :: inputs ++ [i_last]) ->
  transfers_on ep1_out_stream (simulate m reset [i0]) = [] /\
  transfers_on synthmodule_midi_stream
    (simulate m reset (i0 :: inputs ++ [i_last]))
  = bytes_on ep1_out_stream (simulate m reset [i0])
    ++ transfers_on ep1_out_stream (simulate m reset (i0 :: inputs)).
Proof.
  intros Hm Hready.
  destruct (elaborate_domains with_midi_in) as [m' [Hm' [Hu Hc]]].
  rewrite Hm in Hm'. injection Hm' as <-.
  assert (transfers_on ep1_out_stream [settle m reset i0] = []) as Hfirst.
  { cbn [transfers_on flat_map]. rewrite (settle_ep_ready m Hu Hc).
    cbn [reset Z.eqb]. now rewrite andb_false_r. }
  split; [exact Hfirst |].
  rewrite (midi_transfers_when_ready m Hu Hc) by assumption.
  change (i0 :: inputs ++ [i_last]) with ((i0 :: inputs) ++ [i_last]).
  rewrite (bytes_delayed m Hu Hc). cbn [reset Z.eqb app simulate].
  cbn [bytes_on transfers_on flat_map].
  fold (transfers_on ep1_out_stream
          (simulate m (tick m (settle m reset i0)) inputs)).
  fold (bytes_on ep1_out_stream
          (simulate m (tick m (settle m reset i0)) inputs)).
  rewrite (settle_ep_ready m Hu Hc). cbn [reset Z.eqb].
  rewrite andb_false_r, app_nil_r. cbn [app]. f_equal.
  symmetry. apply (ep_transfers_when_ready m Hu Hc).
  - rewrite (tick_ep_ready m Hu), (settle_midi_ready m Hu Hc), trunc_idem.
    now inversion Hready.
  - inversion Hready as [| ? ? _ Hrest]; subst.
    apply Forall_app in Hrest. tauto.
Qed.

(** A byte presented in the reset cycle and held for the next: the endpoint
    hands it over once, the synth module takes it twice. *)
Lemma reset_cycle_byte_is_passed_on_witness :
  exists m, elaborate false = Some m /\
    transfers_on ep1_out_stream (simulate m reset [cycle_inputs 1 0x09 1]) = [] /\
    transfers_on synthmodule_midi_stream
      (simulate m reset
         (cycle_inputs 1 0x09 1 :: [cycle_inputs 1 0x09 1] ++ [cycle_inputs 0 0 1]))
    = bytes_on ep1_out_stream (simulate m reset [cycle_inputs 1 0x09 1])
      ++ transfers_on ep1_out_stream
           (simulate m reset (cycle_inputs 1 0x09 1 :: [cycle_inputs 1 0x09 1])).
Proof.
  eexists. split; [reflexivity |].
  apply (reset_cycle_byte_is_passed_on false).
  - reflexivity.
  - repeat constructor.
Defined.

(** X14: the top level keeps one cycle of state: whatever the registers
    hold at the start, every signal from the second cycle on is decided by
    the inputs alone. *)
Theorem state_forgotten_after_one_cycle (with_midi_in : bool) :
  exists m, elaborate with_midi_in = Some m /\
    forall (regs1 regs2 : Env) (inputs : list Env) (s : Signal),
      map (fun e => e s) (List.tl (simulate m regs1 inputs))
      = map (fun e => e s) (List.tl (simulate m regs2 inputs)).
Proof.
  destruct (elaborate_domains with_midi_in) as [m [Hm [Hu Hc]]].
  exists m. split; [exact Hm |].
  intros regs1 regs2 inputs s. apply (simulate_forgets m Hu Hc).
Qed.
